(** * Avatario session starter: a shallow embedding of
      [livekit/plugins/avatario/api.py] and the properties of its
      construction, validation, payload building and retrying POST. *)

From Stdlib Require Import ZArith QArith Lia.
From stdpp Require Import gmap strings list fin_maps.

Set Warnings "-register-all".
Local Open Scope string_scope.
Local Open Scope list_scope.
Local Open Scope Z_scope.

(** ** Python values *)

(** [dict[str, Any]]: the JSON-like values a payload can hold. *)
Inductive value : Type :=
| VNone
| VBool (b : bool)
| VInt (n : Z)
| VStr (s : string)
| VList (l : list value)
| VDict (d : gmap string value).

(** [NotGivenOr[T]]: either the sentinel [NOT_GIVEN] or a value. *)
Inductive NotGivenOr (T : Type) : Type :=
| NOT_GIVEN
| Given (x : T).
Arguments NOT_GIVEN {T}.
Arguments Given {T} x.

(** Truth value of a [str]: the empty string is falsy. *)
Definition str_bool (s : string) : bool := negb (String.eqb s "").

(** Truth value of a [NotGivenOr[str]]: the sentinel is falsy. *)
Definition given_str_bool (x : NotGivenOr string) : bool :=
  match x with
  | NOT_GIVEN => false
  | Given s => str_bool s
  end.

(** Truth value of a [str | None]. *)
Definition opt_str_bool (x : option string) : bool :=
  match x with
  | None => false
  | Some s => str_bool s
  end.

(** [x or fallback] for [x : NotGivenOr[str]] and [fallback : str | None]:
    [x] when it is truthy, the fallback (whatever it is) otherwise. *)
Definition str_or (x : NotGivenOr string) (fallback : option string)
  : option string :=
  match x with
  | Given s => if str_bool s then Some s else fallback
  | NOT_GIVEN => fallback
  end.

(** [d or {}] for [d : NotGivenOr[dict]]: an empty dict is falsy too. *)
Definition dict_or_empty (d : NotGivenOr (gmap string value))
  : gmap string value :=
  match d with
  | Given m => if Nat.eqb (size m) 0 then ∅ else m
  | NOT_GIVEN => ∅
  end.

(** [payload.update(extra)]: every key of [extra] is written into
    [payload], replacing the value of a key already there. *)
Definition dict_update (payload extra : gmap string value)
  : gmap string value :=
  extra ∪ payload.

(** [os.getenv(name)] over the process environment. *)
Definition getenv (environ : gmap string string) (name : string)
  : option string :=
  environ !! name.

(** ** Exceptions *)

Inductive exn : Type :=
| AvatarioException (msg : string)
| APIStatusError (msg : string) (status_code : Z) (body : string)
| APIConnectionError (msg : string)
| OtherException (name : string)
  (* any other subclass of Exception: aiohttp.ClientError,
     TimeoutError, ValueError from a JSON decoder, ... *)
| BaseExceptionOnly (name : string).
  (* raised outside the Exception hierarchy: CancelledError,
     KeyboardInterrupt, ... *)

(** [isinstance(e, Exception)] *)
Definition isinstance_Exception (e : exn) : bool :=
  match e with
  | BaseExceptionOnly _ => false
  | _ => true
  end.

(** [isinstance(e, APIConnectionError)]; [APIStatusError] is a sibling
    class, not a subclass. *)
Definition isinstance_APIConnectionError (e : exn) : bool :=
  match e with
  | APIConnectionError _ => true
  | _ => false
  end.

Inductive Result (A : Type) : Type :=
| Ok (a : A)
| Raise (e : exn).
Arguments Ok {A} a.
Arguments Raise {A} e.

(** ** Client configuration *)

Record APIConnectOptions : Type := {
  max_retry : Z;
  retry_interval : Q;  (* seconds; only handed to asyncio.sleep *)
  timeout : Q          (* seconds; only handed to session.post *)
}.

Record AvatarioAPI : Type := {
  _api_key : string;
  _conn_options : APIConnectOptions
}.

Definition DEFAULT_API_URL : string := "".

(** [AvatarioAPI.__init__]: the key is the argument when truthy, else the
    environment variable; only [None] is rejected. The session the client
    keeps ([session or aiohttp.ClientSession()]) is the [session_post]
    that a run is given below; creating one is not modelled. *)
Definition __init__ (api_key : NotGivenOr string)
    (conn_options : APIConnectOptions) (environ : gmap string string)
  : Result AvatarioAPI :=
  match str_or api_key (getenv environ "AVATARIO_API_KEY") with
  | None => Raise (AvatarioException "AVATARIO_API_KEY must be set")
  | Some key => Ok {| _api_key := key; _conn_options := conn_options |}
  end.

(** ** The network and the observable trace *)

(** Keyword arguments of one [session.post] call. *)
Record Request : Type := {
  post_url : string;
  post_headers : gmap string string;
  post_json : gmap string value;
  post_timeout : Q
}.

(** What the code reads from an [aiohttp] response; [text()] and [json()]
    are awaited and may raise. *)
Record Response : Type := {
  status : Z;
  text : exn + string;
  json : exn + value
}.

(** [response.ok], as [aiohttp] computes it: [400 > self.status]. A
    status below 200 or in the 300s is [ok] too. *)
Definition ok (response : Response) : bool := status response <? 400.
Arguments ok : simpl never.

Inductive Event : Type :=
| EvPost (req : Request) (answer : exn + Response)
| EvWarning (msg : string) (e : exn)     (* logger.warning, extra error *)
| EvException (msg : string) (e : exn)   (* logger.exception *)
| EvSleep (secs : Q).                    (* asyncio.sleep *)

Section Client.

Context {W : Type}.

(** The client session: answers a request from the state of the world. *)
Variable session_post : Request → W → (exn + Response) * W.
(** Time passing during [asyncio.sleep]. *)
Variable asyncio_sleep : Q → W → W.

(** Outcome of running a coroutine to completion. *)
Record Run (A : Type) : Type := {
  result : Result A;
  world : W;
  trace : list Event
}.
Arguments result {A} r.
Arguments world {A} r.
Arguments trace {A} r.

Definition M (A : Type) : Type := W → Run A.

Definition ret {A} (a : A) : M A :=
  λ w, {| result := Ok a; world := w; trace := [] |}.

Definition raise {A} (e : exn) : M A :=
  λ w, {| result := Raise e; world := w; trace := [] |}.

Definition bind {A B} (m : M A) (k : A → M B) : M B :=
  λ w,
    let r := m w in
    match result r with
    | Ok a =>
        let r' := k a (world r) in
        {| result := result r'; world := world r';
           trace := trace r ++ trace r' |}
    | Raise e => {| result := Raise e; world := world r; trace := trace r |}
    end.

(** [try: m  except Exception as e: handler(e)] *)
Definition try_except_Exception {A} (m : M A) (handler : exn → M A) : M A :=
  λ w,
    let r := m w in
    match result r with
    | Ok a => r
    | Raise e =>
        if isinstance_Exception e then
          let r' := handler e (world r) in
          {| result := result r'; world := world r';
             trace := trace r ++ trace r' |}
        else r
    end.

(** [await x] for an awaitable whose outcome is already decided. *)
Definition await {A} (x : exn + A) : M A :=
  match x with
  | inl e => raise e
  | inr a => ret a
  end.

Definition post (req : Request) : M Response :=
  λ w,
    let '(answer, w') := session_post req w in
    {| result := match answer with inl e => Raise e | inr r => Ok r end;
       world := w';
       trace := [EvPost req answer] |}.

Definition logger_warning (msg : string) (e : exn) : M unit :=
  λ w, {| result := Ok tt; world := w; trace := [EvWarning msg e] |}.

Definition logger_exception (msg : string) (e : exn) : M unit :=
  λ w, {| result := Ok tt; world := w; trace := [EvException msg e] |}.

(** [await asyncio.sleep(secs)], for a wait that runs to its end;
    cancelling the task during the wait is not modelled. *)
Definition sleep (secs : Q) : M unit :=
  λ w, {| result := Ok tt; world := asyncio_sleep secs w;
          trace := [EvSleep secs] |}.

Notation "'let*' x ':=' m 'in' k" := (bind m (λ x, k))
  (at level 10, x name, m at level 100, k at level 200, only parsing).
Notation "m >>> k" := (bind m (λ _, k))
  (at level 90, right associativity, only parsing).

(** [for x in xs: body(x)] *)
Fixpoint for_in {A} (xs : list A) (body : A → M unit) : M unit :=
  match xs with
  | [] => ret tt
  | x :: xs' => body x >>> for_in xs' body
  end.

(** [range(n)] *)
Definition range (n : Z) : list Z := Z.of_nat <$> seq 0 (Z.to_nat n).

(** ** [AvatarioAPI._post] *)

Definition post_request (self : AvatarioAPI) (payload : gmap string value)
  : Request :=
  {| post_url := DEFAULT_API_URL +:+ "/start_session";
     post_headers := {[ "Content-Type" := "application/json";
                        "x-api-key" := _api_key self ]};
     post_json := payload;
     post_timeout := timeout (_conn_options self) |}.

(** The body of the [try]. *)
Definition post_try (self : AvatarioAPI) (payload : gmap string value)
  : M unit :=
  let* response := post (post_request self payload) in
  if negb (ok response) then
    let* body := await (text response) in
    raise (APIStatusError "Server returned an error" (status response) body)
  else
    await (json response) >>> ret tt.

(** The body of the [except Exception as e]. *)
Definition post_except (self : AvatarioAPI) (i : Z) (e : exn) : M unit :=
  (if isinstance_APIConnectionError e
   then logger_warning "failed to call avatario api" e
   else logger_exception "failed to call avatario api" e) >>>
  if i <? max_retry (_conn_options self) - 1
  then sleep (retry_interval (_conn_options self))
  else ret tt.

Definition _post (self : AvatarioAPI) (payload : gmap string value)
  : M unit :=
  for_in (range (max_retry (_conn_options self)))
    (λ i, try_except_Exception (post_try self payload)
                               (post_except self i)) >>>
  raise (APIConnectionError "Failed to call Avatario API after all retries").

(** ** [AvatarioAPI.start_session] *)

Definition start_session (self : AvatarioAPI)
    (environ : gmap string string)
    (avatar_id livekit_agent_identity : NotGivenOr string)
    (properties extra_payload : NotGivenOr (gmap string value))
  : M unit :=
  let avatar_id := str_or avatar_id (getenv environ "AVATARIO_REPLICA_ID") in
  match avatar_id with
  | Some avatar_id =>
      if negb (str_bool avatar_id) then
        raise (AvatarioException "avatar_id must be set")
      else
        match livekit_agent_identity with
        | Given agent_id =>
            if negb (str_bool agent_id) then
              raise (AvatarioException
                ("the identity of agent needs to be provided " +:+
                 "to ensure its proper communication with avatario backend"))
            else
              let properties := dict_or_empty properties in
              let payload : gmap string value :=
                {[ "avatario_face_id" := VStr avatar_id;
                   "agent_id" := VStr agent_id;
                   "livekit" := VDict properties ]} in
              let payload :=
                match extra_payload with  (* if utils.is_given(...) *)
                | Given extra => dict_update payload extra
                | NOT_GIVEN => payload
                end in
              _post self payload
        | NOT_GIVEN =>
            raise (AvatarioException
              ("the identity of agent needs to be provided " +:+
               "to ensure its proper communication with avatario backend"))
        end
  | None => raise (AvatarioException "avatar_id must be set")
  end.

End Client.

Arguments result {W A} r.
Arguments world {W A} r.
Arguments trace {W A} r.

(** ** Reading a trace *)

(** The exception one attempt ends with, from what the session answered:
    a transport error, a status error built from a response that is not
    [ok], or whatever reading the body raised. *)
Definition failure_of (answer : exn + Response) : option exn :=
  match answer with
  | inl e => Some e
  | inr r =>
      if ok r then
        match json r with
        | inl e => Some e
        | inr _ => None
        end
      else
        Some match text r with
             | inl e => e
             | inr body =>
                 APIStatusError "Server returned an error" (status r) body
             end
  end.

(** The log record written for a caught exception. *)
Definition log_of (e : exn) : Event :=
  if isinstance_APIConnectionError e
  then EvWarning "failed to call avatario api" e
  else EvException "failed to call avatario api" e.

(** Requests issued, in order. *)
Definition requests (tr : list Event) : list Request :=
  omap (λ ev, match ev with EvPost req _ => Some req | _ => None end) tr.

(** Exceptions that attempts ended with, in order. *)
Definition failures (tr : list Event) : list exn :=
  omap (λ ev, match ev with EvPost _ a => failure_of a | _ => None end) tr.

(** Exceptions written to the log, in order. *)
Definition logged (tr : list Event) : list exn :=
  omap (λ ev, match ev with
              | EvWarning _ e | EvException _ e => Some e
              | _ => None
              end) tr.

(** Every failed attempt is directly followed by its log record. *)
Fixpoint logged_at_occurrence (tr : list Event) : Prop :=
  match tr with
  | [] => True
  | EvPost _ answer :: rest =>
      match failure_of answer with
      | Some e => (∃ rest', rest = log_of e :: rest')
                  ∧ logged_at_occurrence rest
      | None => logged_at_occurrence rest
      end
  | _ :: rest => logged_at_occurrence rest
  end.

(** Attempts and waits, with the log records left out. *)
Inductive Tick : Type :=
| Attempt
| Wait (secs : Q).

Definition schedule (tr : list Event) : list Tick :=
  omap (λ ev, match ev with
              | EvPost _ _ => Some Attempt
              | EvSleep secs => Some (Wait secs)
              | _ => None
              end) tr.

(** [n] attempts with a wait of [secs] between consecutive ones and none
    after the last. *)
Fixpoint spaced (n : nat) (secs : Q) : list Tick :=
  match n with
  | O => []
  | S n' =>
      Attempt :: match n' with
                 | O => []
                 | S _ => Wait secs :: spaced n' secs
                 end
  end.

(** An awaitable that, if it raises, raises inside the Exception
    hierarchy. *)
Definition raises_Exception_only {A} (x : exn + A) : Prop :=
  match x with
  | inl e => isinstance_Exception e = true
  | inr _ => True
  end.

(** Retryable failure of one attempt: a transport error, or a response
    with a status of 400 or above, the ones that are not [ok]. *)
Definition attempt_fails (answer : exn + Response) : Prop :=
  match answer with
  | inl e => isinstance_Exception e = true
  | inr r => 400 ≤ status r ∧ raises_Exception_only (text r)
  end.

(** The session and the response raise nothing from outside the
    Exception hierarchy (no cancellation, no interpreter exit). *)
Definition raises_Exceptions_only (answer : exn + Response) : Prop :=
  match answer with
  | inl e => isinstance_Exception e = true
  | inr r => raises_Exception_only (text r) ∧ raises_Exception_only (json r)
  end.

(** The waits of a schedule, in order. *)
Definition waits (ticks : list Tick) : list Q :=
  omap (λ t, match t with Wait secs => Some secs | Attempt => None end) ticks.

(** The error [_post] ends with once the loop is over. *)
Definition retries_exhausted : exn :=
  APIConnectionError "Failed to call Avatario API after all retries".

(** The message of the agent identity check. *)
Definition identity_message : string :=
  "the identity of agent needs to be provided to ensure its proper communication with avatario backend".

(** ** Test transports *)

(** The world is the number of requests served so far. *)
Definition http_500 : Response :=
  {| status := 500;
     text := inr "Internal Server Error";
     json := inl (OtherException "ContentTypeError") |}.

Definition http_200 : Response :=
  {| status := 200; text := inr "{}"; json := inr (VDict ∅) |}.

Definition always_500 (req : Request) (served : nat)
  : (exn + Response) * nat :=
  (inr http_500, S served).

Definition always_200 (req : Request) (served : nat)
  : (exn + Response) * nat :=
  (inr http_200, S served).

Definition fails_twice_then_200 (req : Request) (served : nat)
  : (exn + Response) * nat :=
  (if Nat.ltb served 2
   then inl (OtherException "ClientConnectorError")
   else inr http_200,
   S served).

Definition no_clock (secs : Q) (served : nat) : nat := served.

Definition retry3 : APIConnectOptions :=
  {| max_retry := 3; retry_interval := 2; timeout := 10 |}.

Definition client3 : AvatarioAPI :=
  {| _api_key := "secret"; _conn_options := retry3 |}.

Definition client0 : AvatarioAPI :=
  {| _api_key := "secret";
     _conn_options := {| max_retry := 0; retry_interval := 2; timeout := 10 |} |}.

Definition face_payload : gmap string value :=
  {[ "avatario_face_id" := VStr "face";
     "agent_id" := VStr "agent";
     "livekit" := VDict ∅ ]}.

Definition sample_rate_payload : gmap string value :=
  {[ "audio_sample_rate" := VInt 16000 ]}.

(** ** More on reading a trace *)

(** One attempt that goes through: a response that is [ok] and whose body
    parses. *)
Definition attempt_succeeds (answer : exn + Response) : Prop :=
  match answer with
  | inl _ => False
  | inr r => ok r = true ∧ ∃ v, json r = inr v
  end.

(** A log record has the fixed message, and its level follows the class
    of the exception: warning for [APIConnectionError], [logger.exception]
    for everything else. *)
Definition log_record_ok (ev : Event) : Prop :=
  match ev with
  | EvWarning msg e =>
      msg = "failed to call avatario api"
      ∧ isinstance_APIConnectionError e = true
  | EvException msg e =>
      msg = "failed to call avatario api"
      ∧ isinstance_APIConnectionError e = false
  | _ => True
  end.

(** What becomes of each attempt's failure, given how the run ended: an
    exception inside the Exception hierarchy is logged right after its
    request; any other ends the run at its request. *)
Fixpoint handled_at_occurrence (res : Result unit) (tr : list Event) : Prop :=
  match tr with
  | [] => True
  | EvPost _ answer :: rest =>
      match failure_of answer with
      | Some e =>
          if isinstance_Exception e
          then (∃ rest', rest = log_of e :: rest')
               ∧ handled_at_occurrence res rest
          else rest = [] ∧ res = Raise e
      | None => handled_at_occurrence res rest
      end
  | _ :: rest => handled_at_occurrence res rest
  end.

(** Every sleep comes when fewer than [bound] requests have been issued,
    counting from [sent] already issued. *)
Fixpoint sleeps_below (bound sent : nat) (tr : list Event) : Prop :=
  match tr with
  | [] => True
  | EvPost _ _ :: rest => sleeps_below bound (S sent) rest
  | EvSleep _ :: rest => (sent < bound)%nat ∧ sleeps_below bound sent rest
  | _ :: rest => sleeps_below bound sent rest
  end.

(** The keys of the payload literal of [start_session]. *)
Definition base_keys : gset string :=
  {[ "avatario_face_id"; "agent_id"; "livekit" ]}.

(** ** More test transports *)

Definition http_200_not_json : Response :=
  {| status := 200; text := inr "<html>";
     json := inl (OtherException "ContentTypeError") |}.

Definition always_not_json (req : Request) (served : nat)
  : (exn + Response) * nat :=
  (inr http_200_not_json, S served).

(** A redirect status with a body that parses. *)
Definition http_300 : Response :=
  {| status := 300; text := inr "{}"; json := inr (VDict ∅) |}.

Definition always_300 (req : Request) (served : nat)
  : (exn + Response) * nat :=
  (inr http_300, S served).

(** Fails once, then the task is cancelled during the second request. *)
Definition cancelled_on_second (req : Request) (served : nat)
  : (exn + Response) * nat :=
  (if Nat.ltb served 1
   then inl (OtherException "ClientConnectorError")
   else inl (BaseExceptionOnly "CancelledError"),
   S served).

(** ** The loop, one iteration at a time *)

Section Loop.

Context {W : Type}.
Variable session_post : Request → W → (exn + Response) * W.
Variable asyncio_sleep : Q → W → W.

Abbreviation run_post := (_post session_post asyncio_sleep).
Abbreviation iteration self payload i :=
  (try_except_Exception
     (post_try session_post self payload)
     (post_except asyncio_sleep self i)).

(** What one pass through the loop body does, by the answer of the
    session. *)
Lemma iteration_run self payload i w :
  let req := post_request self payload in
  let answer := (session_post req w).1 in
  let w1 := (session_post req w).2 in
  let more := (i <? max_retry (_conn_options self) - 1)%Z in
  let secs := retry_interval (_conn_options self) in
  iteration self payload i w =
    match failure_of answer with
    | None => {| result := Ok tt; world := w1; trace := [EvPost req answer] |}
    | Some e =>
        if isinstance_Exception e then
          {| result := Ok tt;
             world := if more then asyncio_sleep secs w1 else w1;
             trace := EvPost req answer :: log_of e ::
                      if more then [EvSleep secs] else [] |}
        else
          {| result := Raise e; world := w1; trace := [EvPost req answer] |}
    end.
Proof.
  cbv zeta.
  unfold try_except_Exception, post_try, post_except, bind, post.
  destruct (session_post (post_request self payload) w) as [answer w1].
  cbn [fst snd].
  destruct answer as [e | r]; cbn.
  - unfold log_of.
    destruct (isinstance_Exception e); [| reflexivity].
    destruct (isinstance_APIConnectionError e);
      destruct (i <? max_retry (_conn_options self) - 1)%Z; reflexivity.
  - destruct (ok r); cbn.
    + destruct (json r) as [e | v]; cbn; [| reflexivity].
      unfold log_of.
      destruct (isinstance_Exception e); [| reflexivity].
      destruct (isinstance_APIConnectionError e);
        destruct (i <? max_retry (_conn_options self) - 1)%Z; reflexivity.
    + destruct (text r) as [e | body]; cbn.
      * unfold log_of.
        destruct (isinstance_Exception e); [| reflexivity].
        destruct (isinstance_APIConnectionError e);
          destruct (i <? max_retry (_conn_options self) - 1)%Z; reflexivity.
      * destruct (i <? max_retry (_conn_options self) - 1)%Z; reflexivity.
Qed.

Abbreviation loop self payload indices :=
  (for_in indices (λ i, iteration self payload i)).

Lemma loop_nil self payload w :
  loop self payload [] w = {| result := Ok tt; world := w; trace := [] |}.
Proof. reflexivity. Qed.

Lemma loop_cons self payload i indices w :
  loop self payload (i :: indices) w =
    let r := iteration self payload i w in
    match result r with
    | Ok _ =>
        let r' := loop self payload indices (world r) in
        {| result := result r'; world := world r';
           trace := trace r ++ trace r' |}
    | Raise e => {| result := Raise e; world := world r; trace := trace r |}
    end.
Proof. reflexivity. Qed.

(** [_post] is the loop followed by the unconditional [raise]. *)
Lemma post_run self payload w :
  run_post self payload w =
    let r := loop self payload (range (max_retry (_conn_options self))) w in
    {| result := match result r with
                 | Ok _ => Raise retries_exhausted
                 | Raise e => Raise e
                 end;
       world := world r;
       trace := trace r |}.
Proof.
  unfold _post, bind; cbv zeta.
  destruct (result (for_in _ _ w)); cbn; [| reflexivity].
  by rewrite app_nil_r.
Qed.

Lemma requests_app tr1 tr2 : requests (tr1 ++ tr2) = requests tr1 ++ requests tr2.
Proof. apply omap_app. Qed.

Lemma failures_app tr1 tr2 : failures (tr1 ++ tr2) = failures tr1 ++ failures tr2.
Proof. apply omap_app. Qed.

Lemma logged_app tr1 tr2 : logged (tr1 ++ tr2) = logged tr1 ++ logged tr2.
Proof. apply omap_app. Qed.

Lemma schedule_app tr1 tr2 : schedule (tr1 ++ tr2) = schedule tr1 ++ schedule tr2.
Proof. apply omap_app. Qed.

Lemma requests_log_of e tr : requests (log_of e :: tr) = requests tr.
Proof. unfold log_of; by destruct (isinstance_APIConnectionError e). Qed.

Lemma failures_log_of e tr : failures (log_of e :: tr) = failures tr.
Proof. unfold log_of; by destruct (isinstance_APIConnectionError e). Qed.

Lemma logged_log_of e tr : logged (log_of e :: tr) = e :: logged tr.
Proof. unfold log_of; by destruct (isinstance_APIConnectionError e). Qed.

Lemma schedule_log_of e tr : schedule (log_of e :: tr) = schedule tr.
Proof. unfold log_of; by destruct (isinstance_APIConnectionError e). Qed.

Lemma logged_at_occurrence_log_of e tr :
  logged_at_occurrence (log_of e :: tr) ↔ logged_at_occurrence tr.
Proof. unfold log_of; by destruct (isinstance_APIConnectionError e). Qed.

(** The requests of one iteration: exactly one, built from the client
    and the payload. *)
Lemma iteration_requests self payload i w :
  requests (trace (iteration self payload i w)) = [post_request self payload].
Proof.
  rewrite iteration_run; cbv zeta.
  destruct (failure_of _) as [e |]; [| reflexivity].
  destruct (isinstance_Exception e); [| reflexivity].
  unfold log_of.
  by destruct (isinstance_APIConnectionError e), (_ <? _)%Z.
Qed.

(** Every request of the loop is that same request. *)
Lemma loop_requests self payload indices w :
  Forall (λ req, req = post_request self payload)
         (requests (trace (loop self payload indices w))).
Proof.
  revert w; induction indices as [| i indices IH]; intros w.
  - constructor.
  - rewrite loop_cons; cbv zeta.
    pose proof (iteration_requests self payload i w) as Hreq.
    destruct (result (iteration self payload i w)); cbn [trace].
    + rewrite requests_app, Hreq. constructor; [done | apply IH].
    + rewrite Hreq. by repeat constructor.
Qed.

(** The loop ends normally, or with an exception that is outside the
    Exception hierarchy and so went through the [except] clause. *)
Lemma loop_result self payload indices w :
  match result (loop self payload indices w) with
  | Ok _ => True
  | Raise e => isinstance_Exception e = false
  end.
Proof.
  revert w; induction indices as [| i indices IH]; intros w; [done |].
  rewrite loop_cons; cbv zeta.
  rewrite iteration_run; cbv zeta.
  destruct (failure_of _) as [e |]; cbn; [| apply IH].
  destruct (isinstance_Exception e) eqn:He; cbn; [apply IH | done].
Qed.

(** [_post] never returns: whatever the session answers, it raises. *)
Lemma post_always_raises self payload w :
  ∃ e, result (run_post self payload w) = Raise e
       ∧ (e = retries_exhausted ∨ isinstance_Exception e = false).
Proof.
  rewrite post_run; cbv zeta; cbn.
  pose proof (loop_result self payload
                (range (max_retry (_conn_options self))) w) as H.
  destruct (result (loop _ _ _ w)) as [[] | e]; eauto.
Qed.

(** *** When every attempt fails *)

Lemma attempt_fails_failure answer :
  attempt_fails answer →
  ∃ e, failure_of answer = Some e ∧ isinstance_Exception e = true.
Proof.
  destruct answer as [e | r]; cbn.
  - eauto.
  - intros [Hstatus Htext].
    assert (ok r = false) as -> by (by apply Z.ltb_ge).
    destruct (text r) as [e | body]; cbn in *; eauto.
Qed.

Lemma spaced_succ n secs :
  spaced (S n) secs =
    Attempt :: if decide (n = 0%nat) then [] else Wait secs :: spaced n secs.
Proof. by destruct n. Qed.

Lemma loop_failing self payload :
  (∀ req w, attempt_fails (session_post req w).1) →
  ∀ m k w,
    (k + m)%nat = Z.to_nat (max_retry (_conn_options self)) →
    let r := loop self payload (Z.of_nat <$> seq k m) w in
    result r = Ok tt
    ∧ length (requests (trace r)) = m
    ∧ schedule (trace r) = spaced m (retry_interval (_conn_options self)).
Proof.
  intros Hfail m; induction m as [| m IH]; intros k w Hkm; [done |].
  cbv zeta. rewrite <- cons_seq, fmap_cons, loop_cons; cbv zeta.
  pose proof (iteration_requests self payload (Z.of_nat k) w) as Hreq.
  revert Hreq. rewrite iteration_run; cbv zeta.
  destruct (attempt_fails_failure _ (Hfail (post_request self payload) w))
    as (e & -> & ->).
  cbn [result world trace]. intros Hreq.
  set (w1 := if (Z.of_nat k <? _)%Z then _ else _).
  destruct (IH (S k) w1) as (Hres & Hlen & Hsched); [lia |].
  split_and!.
  - done.
  - rewrite requests_app, length_app, Hreq, Hlen. done.
  - rewrite spaced_succ.
    change (schedule ((?a :: log_of e :: ?t) ++ ?t')) with
      (Attempt :: schedule (log_of e :: t ++ t')).
    rewrite schedule_log_of, schedule_app, Hsched. f_equal.
    case_decide as Hm.
    + subst m. by rewrite (proj2 (Z.ltb_ge _ _)) by lia.
    + by rewrite (proj2 (Z.ltb_lt _ _)) by lia.
Qed.

Lemma waits_spaced n secs :
  waits (spaced n secs) = replicate (n - 1) secs.
Proof.
  induction n as [| n IH]; [done |].
  rewrite spaced_succ. case_decide as Hn; [by subst |].
  change (waits (Attempt :: Wait secs :: ?t)) with (secs :: waits t).
  rewrite IH. destruct n as [| n]; [done |].
  cbn. by rewrite Nat.sub_0_r.
Qed.

Lemma last_spaced n secs : last (spaced (S n) secs) = Some Attempt.
Proof.
  induction n as [| n IH]; [done |].
  rewrite spaced_succ. case_decide; [done |].
  by rewrite !last_cons, IH.
Qed.

(** *** When failures stay inside the Exception hierarchy *)

Lemma raises_Exceptions_only_failure answer e :
  raises_Exceptions_only answer →
  failure_of answer = Some e →
  isinstance_Exception e = true.
Proof.
  destruct answer as [e' | r]; cbn.
  - by intros ? [= <-].
  - intros [Htext Hjson]. destruct (ok r).
    + destruct (json r); [| done]. by intros [= <-].
    + destruct (text r); intros [= <-]; done.
Qed.

Lemma failures_post req answer tr :
  failures (EvPost req answer :: tr) =
    match failure_of answer with
    | Some e => e :: failures tr
    | None => failures tr
    end.
Proof. reflexivity. Qed.

Lemma logged_post req answer tr : logged (EvPost req answer :: tr) = logged tr.
Proof. reflexivity. Qed.

Lemma loop_logs_failures self payload :
  (∀ req w, raises_Exceptions_only (session_post req w).1) →
  ∀ indices w,
    let r := loop self payload indices w in
    result r = Ok tt
    ∧ logged (trace r) = failures (trace r)
    ∧ logged_at_occurrence (trace r).
Proof.
  intros Hexn indices; induction indices as [| i indices IH]; intros w; [done |].
  cbv zeta. rewrite loop_cons; cbv zeta.
  rewrite iteration_run; cbv zeta.
  pose proof (λ e, raises_Exceptions_only_failure _ e
                     (Hexn (post_request self payload) w)) as He.
  destruct (failure_of _) as [e |] eqn:Hf.
  - rewrite (He e eq_refl). cbn [result world trace].
    set (w1 := if (i <? _)%Z then _ else _).
    destruct (IH w1) as (Hres & Hlog & Hocc).
    split_and!; [done | |].
    + rewrite <- !app_comm_cons, logged_post, failures_post, Hf.
      rewrite logged_log_of, failures_log_of, logged_app, failures_app.
      rewrite Hlog. by destruct (i <? _)%Z.
    + cbn [app logged_at_occurrence]. rewrite Hf.
      split; [eauto |].
      apply logged_at_occurrence_log_of.
      by destruct (i <? _)%Z.
  - cbn [result world trace].
    destruct (IH (session_post (post_request self payload) w).2)
      as (Hres & Hlog & Hocc).
    split_and!; [done | |].
    + cbn [app]. by rewrite logged_post, failures_post, Hf.
    + cbn [app logged_at_occurrence]. by rewrite Hf.
Qed.

End Loop.

(** ** Construction *)

Lemma str_or_None api_key fallback :
  str_or api_key fallback = None ↔
  given_str_bool api_key = false ∧ fallback = None.
Proof.
  destruct api_key as [| s]; cbn; [intuition congruence |].
  destruct (str_bool s); intuition congruence.
Qed.

Lemma init_key_resolved api_key conn_options environ self :
  __init__ api_key conn_options environ = Ok self →
  str_or api_key (getenv environ "AVATARIO_API_KEY") = Some (_api_key self)
  ∧ _conn_options self = conn_options.
Proof.
  unfold __init__.
  destruct (str_or api_key _); [| done].
  by intros [= <-].
Qed.

(** C5 (as the code has it): construction fails with the configuration
    error exactly when the key argument is absent or empty and the
    environment variable AVATARIO_API_KEY is unset, so it always fails
    when both are unset; otherwise it succeeds, keeping the argument when
    that is non-empty and the value of the variable, whatever it is,
    when not. *)
Theorem init_fails_iff_key_unset
    (api_key : NotGivenOr string) (conn_options : APIConnectOptions)
    (environ : gmap string string) :
  (__init__ api_key conn_options environ =
     Raise (AvatarioException "AVATARIO_API_KEY must be set")
   ↔ given_str_bool api_key = false
     ∧ getenv environ "AVATARIO_API_KEY" = None)
  ∧ (∀ self, __init__ api_key conn_options environ = Ok self ↔
       str_or api_key (getenv environ "AVATARIO_API_KEY")
         = Some (_api_key self)
       ∧ _conn_options self = conn_options)
  ∧ (getenv environ "AVATARIO_API_KEY" = None →
     __init__ NOT_GIVEN conn_options environ =
       Raise (AvatarioException "AVATARIO_API_KEY must be set")).
Proof.
  unfold __init__. split_and!.
  - rewrite <- str_or_None.
    destruct (str_or api_key _); intuition congruence.
  - intros [key opts]; cbn.
    destruct (str_or api_key _); intuition congruence.
  - cbn. by intros ->.
Qed.

(** C5, counterexample: with no key argument and AVATARIO_API_KEY set to
    the empty string the resolved key is empty, and construction
    succeeds. *)
Lemma init_accepts_empty_key_from_environment :
  str_or NOT_GIVEN (getenv {[ "AVATARIO_API_KEY" := "" ]} "AVATARIO_API_KEY")
    = Some ""
  ∧ __init__ NOT_GIVEN retry3 {[ "AVATARIO_API_KEY" := "" ]}
    = Ok {| _api_key := ""; _conn_options := retry3 |}.
Proof. split; reflexivity. Qed.

(** ** Starting a session *)

Section StartSession.

Context {W : Type}.
Variable session_post : Request → W → (exn + Response) * W.
Variable asyncio_sleep : Q → W → W.

Abbreviation run_post := (_post session_post asyncio_sleep).
Abbreviation run_start := (start_session session_post asyncio_sleep).

Lemma dict_or_empty_given (properties : gmap string value) :
  dict_or_empty (Given properties) = properties.
Proof.
  unfold dict_or_empty.
  destruct (Nat.eqb_spec (size properties) 0) as [Hsize |]; [| done].
  symmetry. by apply map_size_empty_iff.
Qed.

Lemma dict_or_empty_spec properties :
  dict_or_empty properties =
    match properties with Given P => P | NOT_GIVEN => ∅ end.
Proof. destruct properties; [done | apply dict_or_empty_given]. Qed.

(** Past the two checks, the call is [_post] on the payload. *)
Lemma start_session_valid self environ avatar_id A G properties extra w :
  str_or avatar_id (getenv environ "AVATARIO_REPLICA_ID") = Some A →
  str_bool A = true →
  str_bool G = true →
  let base : gmap string value :=
    {[ "avatario_face_id" := VStr A;
       "agent_id" := VStr G;
       "livekit" := VDict match properties with
                          | Given P => P
                          | NOT_GIVEN => ∅
                          end ]} in
  run_start self environ avatar_id (Given G) properties extra w =
    run_post self match extra with
                  | Given e => dict_update base e
                  | NOT_GIVEN => base
                  end w.
Proof.
  intros HA HAne HGne. unfold start_session.
  rewrite HA, HAne, HGne, dict_or_empty_spec. reflexivity.
Qed.

Lemma post_requests self payload w :
  Forall (λ req, req = post_request self payload)
         (requests (trace (run_post self payload w))).
Proof. rewrite post_run. apply loop_requests. Qed.

(** C2 (as the code has it): with avatar id resolved to a non-empty A, a
    non-empty agent identity G and properties P (empty when absent), the
    payload built before any merge of the extra payload is exactly
    {avatario_face_id: A, agent_id: G, livekit: P}; without an extra
    payload it is the body of every request. *)
Theorem start_session_base_payload
    self environ avatar_id A G properties extra w :
  str_or avatar_id (getenv environ "AVATARIO_REPLICA_ID") = Some A →
  str_bool A = true →
  str_bool G = true →
  let P := match properties with Given P => P | NOT_GIVEN => ∅ end in
  let base : gmap string value :=
    {[ "avatario_face_id" := VStr A;
       "agent_id" := VStr G;
       "livekit" := VDict P ]} in
  run_start self environ avatar_id (Given G) properties extra w =
    run_post self match extra with
                  | Given e => dict_update base e
                  | NOT_GIVEN => base
                  end w
  ∧ Forall (λ req, post_json req = base)
      (requests (trace
         (run_start self environ avatar_id (Given G) properties NOT_GIVEN w))).
Proof.
  intros HA HAne HGne P base. split.
  - by apply start_session_valid.
  - rewrite (start_session_valid _ _ _ A G _ NOT_GIVEN) by done.
    eapply Forall_impl; [apply post_requests |].
    by intros req ->.
Qed.

(** C4: a given extra payload is merged into the top level of the body:
    every key of the extra payload is in the body with the value the extra
    payload gives it, also where the base payload has the key, and the
    other keys keep their base values; merging {audio_sample_rate: 16000}
    gives a body with audio_sample_rate: 16000 next to the avatar face id,
    agent id and properties entries. *)
Theorem start_session_merges_extra_payload
    self environ avatar_id A G properties extra w :
  str_or avatar_id (getenv environ "AVATARIO_REPLICA_ID") = Some A →
  str_bool A = true →
  str_bool G = true →
  let P := match properties with Given P => P | NOT_GIVEN => ∅ end in
  let base : gmap string value :=
    {[ "avatario_face_id" := VStr A;
       "agent_id" := VStr G;
       "livekit" := VDict P ]} in
  let run := run_start self environ avatar_id (Given G) properties in
  (∀ payload k,
     dict_update payload extra !! k =
       match extra !! k with
       | Some v => Some v
       | None => payload !! k
       end)
  ∧ run (Given extra) w = run_post self (dict_update base extra) w
  ∧ Forall (λ req, post_json req = dict_update base extra)
      (requests (trace (run (Given extra) w)))
  ∧ Forall (λ req,
        post_json req =
          {[ "audio_sample_rate" := VInt 16000;
             "avatario_face_id" := VStr A;
             "agent_id" := VStr G;
             "livekit" := VDict P ]})
      (requests (trace (run (Given {[ "audio_sample_rate" := VInt 16000 ]}) w))).
Proof.
  intros HA HAne HGne P base run. split_and!.
  - intros payload k. unfold dict_update.
    rewrite lookup_union. by destruct (extra !! k), (payload !! k).
  - by apply (start_session_valid self environ avatar_id A G properties
                (Given extra)).
  - unfold run. rewrite (start_session_valid _ _ _ A G _ (Given extra)) by done.
    eapply Forall_impl; [apply post_requests |].
    by intros req ->.
  - unfold run.
    rewrite (start_session_valid _ _ _ A G _ (Given _)) by done.
    eapply Forall_impl; [apply post_requests |].
    intros req ->. cbn [post_json post_request]. unfold dict_update.
    by rewrite <- insert_union_singleton_l.
Qed.

(** C6: when the avatar id argument is absent or empty and
    AVATARIO_REPLICA_ID is unset or empty, the call raises the avatar id
    error with no request issued and the world untouched. *)
Theorem start_session_requires_avatar_id
    self environ avatar_id livekit_agent_identity properties extra w :
  given_str_bool avatar_id = false →
  opt_str_bool (getenv environ "AVATARIO_REPLICA_ID") = false →
  run_start self environ avatar_id livekit_agent_identity properties extra w
    = {| result := Raise (AvatarioException "avatar_id must be set");
         world := w;
         trace := [] |}.
Proof.
  intros Harg Henv. unfold start_session.
  assert (str_or avatar_id (getenv environ "AVATARIO_REPLICA_ID")
          = getenv environ "AVATARIO_REPLICA_ID") as ->.
  { destruct avatar_id as [| s]; cbn in *; [done |]. by rewrite Harg. }
  destruct (getenv environ "AVATARIO_REPLICA_ID") as [s |]; cbn in *.
  - by rewrite Henv.
  - done.
Qed.

(** C7 (as the code has it): when the agent identity is absent or empty
    the call raises a validation error with no request issued and the
    world untouched; the avatar id is checked first, so the message is the
    one about the identity when the avatar id resolves to a non-empty
    value, and the avatar id message when it does not. *)
Theorem start_session_requires_agent_identity
    self environ avatar_id livekit_agent_identity properties extra w :
  given_str_bool livekit_agent_identity = false →
  let resolved := str_or avatar_id (getenv environ "AVATARIO_REPLICA_ID") in
  run_start self environ avatar_id livekit_agent_identity properties extra w
    = {| result := Raise (AvatarioException
                            (if opt_str_bool resolved
                             then identity_message
                             else "avatar_id must be set"));
         world := w;
         trace := [] |}.
Proof.
  intros Hid resolved. unfold start_session. fold resolved.
  destruct resolved as [A |]; cbn; [| done].
  destruct (str_bool A); cbn; [| done].
  destruct livekit_agent_identity as [| G]; cbn in *; [done |].
  by rewrite Hid.
Qed.

End StartSession.

(** ** The retrying POST *)

Section Post.

Context {W : Type}.
Variable session_post : Request → W → (exn + Response) * W.
Variable asyncio_sleep : Q → W → W.

Abbreviation run_post := (_post session_post asyncio_sleep).

(** C3 (as the code has it): when every attempt fails, with a transport
    error or a response whose status is 400 or above, [_post] issues
    exactly [max_retry] requests, sleeps [retry_interval] between
    consecutive requests and not after the last one, and raises the
    retries-exhausted connection error. *)
Theorem post_exhausts_after_max_retry_attempts self payload w :
  (∀ req w', attempt_fails (session_post req w').1) →
  let n := max_retry (_conn_options self) in
  let secs := retry_interval (_conn_options self) in
  let r := run_post self payload w in
  result r = Raise retries_exhausted
  ∧ length (requests (trace r)) = Z.to_nat n
  ∧ (0 ≤ n → Z.of_nat (length (requests (trace r))) = n)
  ∧ schedule (trace r) = spaced (Z.to_nat n) secs
  ∧ waits (schedule (trace r)) = replicate (Z.to_nat n - 1) secs
  ∧ last (schedule (trace r)) = if decide (n ≤ 0) then None else Some Attempt.
Proof.
  intros Hfail n secs r.
  destruct (loop_failing session_post asyncio_sleep self payload Hfail
              (Z.to_nat n) 0%nat w eq_refl) as (Hres & Hlen & Hsched).
  unfold r. rewrite post_run; cbv zeta. cbn [result trace].
  unfold range. fold n. rewrite Hres, Hlen, Hsched, waits_spaced.
  split_and!; try done.
  - lia.
  - case_decide as Hn.
    + by replace (Z.to_nat n) with 0%nat by lia.
    + replace (Z.to_nat n) with (S (Z.to_nat n - 1)) by lia.
      apply last_spaced.
Qed.

(** C8: when the session and the response raise only inside the
    Exception hierarchy, no failure of an attempt leaves the loop: each
    one is caught and logged right after the request it belongs to, the
    log holds exactly the failures of the attempts, and the error the
    caller gets is the retries-exhausted connection error. *)
Theorem post_catches_and_logs_failures self payload w :
  (∀ req w', raises_Exceptions_only (session_post req w').1) →
  let r := run_post self payload w in
  result r = Raise retries_exhausted
  ∧ logged (trace r) = failures (trace r)
  ∧ logged_at_occurrence (trace r).
Proof.
  intros Hexn r.
  destruct (loop_logs_failures session_post asyncio_sleep self payload Hexn
              (range (max_retry (_conn_options self))) w)
    as (Hres & Hlog & Hocc).
  unfold r. rewrite post_run; cbv zeta. cbn [result trace].
  by rewrite Hres.
Qed.

(** C9: for a client built by [__init__], the n-th request of [_post],
    for any n, carries x-api-key with the key resolved at construction
    and Content-Type: application/json, and no other header. *)
Theorem post_sends_api_key_on_every_attempt
    api_key conn_options environ self payload w (n : nat) req :
  __init__ api_key conn_options environ = Ok self →
  requests (trace (run_post self payload w)) !! n = Some req →
  str_or api_key (getenv environ "AVATARIO_API_KEY") = Some (_api_key self)
  ∧ post_headers req !! "x-api-key" = Some (_api_key self)
  ∧ post_headers req !! "Content-Type" = Some "application/json"
  ∧ post_headers req = {[ "Content-Type" := "application/json";
                          "x-api-key" := _api_key self ]}.
Proof.
  intros Hinit Hreq.
  apply init_key_resolved in Hinit as [Hkey _].
  pose proof (loop_requests session_post asyncio_sleep self payload
                (range (max_retry (_conn_options self))) w) as Hall.
  rewrite post_run in Hreq; cbv zeta in Hreq; cbn [trace] in Hreq.
  rewrite (Forall_lookup_1 _ _ _ _ Hall Hreq).
  cbn [post_headers post_request].
  by split_and!.
Qed.

(** C10: with [max_retry] zero or negative, [_post] issues no request,
    leaves the world untouched and raises the retries-exhausted
    connection error, whatever the payload and the session. *)
Theorem post_without_attempts self payload w :
  max_retry (_conn_options self) ≤ 0 →
  run_post self payload w =
    {| result := Raise retries_exhausted; world := w; trace := [] |}.
Proof.
  intros Hn. rewrite post_run; cbv zeta. unfold range.
  by replace (Z.to_nat (max_retry (_conn_options self))) with 0%nat by lia.
Qed.

End Post.

(** ** The claims on concrete runs *)

(** C1: a successful attempt does not end [_post]. With three attempts
    allowed and a session that fails twice and then answers 200 with a
    JSON body, the third attempt succeeds and [_post] still raises the
    retries-exhausted error; with a session that answers 200 every time,
    no attempt fails, three requests are issued and the same error is
    raised. *)
Theorem post_raises_after_success :
  let r := _post fails_twice_then_200 no_clock client3 face_payload 0%nat in
  let r' := _post always_200 no_clock client3 face_payload 0%nat in
  result r = Raise retries_exhausted
  ∧ failures (trace r) = [OtherException "ClientConnectorError";
                          OtherException "ClientConnectorError"]
  ∧ length (requests (trace r)) = 3%nat
  ∧ result r' = Raise retries_exhausted
  ∧ failures (trace r') = []
  ∧ schedule (trace r') = [Attempt; Attempt; Attempt].
Proof. vm_compute. by split_and!. Qed.

(** C2, counterexample: the body sent for avatar id "face", identity
    "agent" and no properties is not the mapping with the keys
    avatar_face_id and caller_properties; it has neither key. *)
Lemma start_session_body_keys_differ :
  ∃ req,
    requests (trace (start_session always_200 no_clock client3 ∅
                       (Given "face") (Given "agent") NOT_GIVEN NOT_GIVEN
                       0%nat)) !! 0%nat = Some req
    ∧ post_json req !! "avatar_face_id" = None
    ∧ post_json req !! "caller_properties" = None
    ∧ post_json req ≠ {[ "avatar_face_id" := VStr "face";
                         "agent_id" := VStr "agent";
                         "caller_properties" := VDict ∅ ]}.
Proof.
  exists (post_request client3 face_payload).
  split_and!; [by vm_compute | by vm_compute | by vm_compute |].
  intros Heq.
  apply (f_equal (λ m : gmap string value, m !! "avatar_face_id")) in Heq.
  vm_compute in Heq. discriminate.
Qed.

Lemma start_session_base_payload_witness :
  str_or (Given "face") (getenv ∅ "AVATARIO_REPLICA_ID") = Some "face"
  ∧ str_bool "face" = true
  ∧ str_bool "agent" = true
  ∧ Forall (λ req, post_json req = face_payload)
      (requests (trace (start_session always_200 no_clock client3 ∅
                          (Given "face") (Given "agent") NOT_GIVEN NOT_GIVEN
                          0%nat))).
Proof.
  split_and!; [reflexivity | reflexivity | reflexivity |].
  apply (start_session_base_payload always_200 no_clock client3 ∅
           (Given "face") "face" "agent" NOT_GIVEN NOT_GIVEN 0%nat);
    reflexivity.
Defined.

(** C3, counterexample: a session that answers every request with status
    300 and a body that parses never gives a 2xx status, yet the three
    attempts follow one another with no wait in between and nothing is
    logged. *)
Lemma post_no_wait_after_status_300 :
  (∀ req served,
     ∃ r, (always_300 req served).1 = inr r
          ∧ ¬ (200 ≤ status r < 300))
  ∧ result (_post always_300 no_clock client3 face_payload 0%nat)
    = Raise retries_exhausted
  ∧ schedule (trace (_post always_300 no_clock client3 face_payload 0%nat))
    = [Attempt; Attempt; Attempt]
  ∧ logged (trace (_post always_300 no_clock client3 face_payload 0%nat))
    = []
  ∧ schedule (trace (_post always_300 no_clock client3 face_payload 0%nat))
    ≠ spaced 3 (retry_interval retry3).
Proof.
  split_and!; [| reflexivity | reflexivity | reflexivity | discriminate].
  intros req served. exists http_300. split; [reflexivity |].
  cbn. lia.
Qed.

Lemma post_exhausts_after_max_retry_attempts_witness :
  (∀ req served, attempt_fails (always_500 req served).1)
  ∧ result (_post always_500 no_clock client3 face_payload 0%nat)
    = Raise retries_exhausted
  ∧ schedule (trace (_post always_500 no_clock client3 face_payload 0%nat))
    = [Attempt; Wait 2; Attempt; Wait 2; Attempt].
Proof.
  assert (∀ req served, attempt_fails (always_500 req served).1) as Hfail
    by (intros req served; cbn; split; [lia | exact I]).
  split; [exact Hfail |].
  destruct (post_exhausts_after_max_retry_attempts always_500 no_clock
              client3 face_payload 0%nat Hfail)
    as (Hres & _ & _ & Hsched & _).
  split; [exact Hres | exact Hsched].
Defined.

Lemma start_session_merges_extra_payload_witness :
  str_or NOT_GIVEN (getenv {[ "AVATARIO_REPLICA_ID" := "face" ]}
                      "AVATARIO_REPLICA_ID") = Some "face"
  ∧ Forall (λ req,
        post_json req =
          {[ "audio_sample_rate" := VInt 16000;
             "avatario_face_id" := VStr "face";
             "agent_id" := VStr "agent";
             "livekit" := VDict ∅ ]})
      (requests (trace (start_session always_500 no_clock client3
                          {[ "AVATARIO_REPLICA_ID" := "face" ]}
                          NOT_GIVEN (Given "agent") NOT_GIVEN
                          (Given sample_rate_payload) 0%nat))).
Proof.
  split; [reflexivity |].
  apply (start_session_merges_extra_payload always_500 no_clock client3
           {[ "AVATARIO_REPLICA_ID" := "face" ]}
           NOT_GIVEN "face" "agent" NOT_GIVEN sample_rate_payload 0%nat);
    reflexivity.
Defined.

Lemma start_session_requires_avatar_id_witness :
  given_str_bool (Given "") = false
  ∧ opt_str_bool (getenv {[ "AVATARIO_REPLICA_ID" := "" ]}
                    "AVATARIO_REPLICA_ID") = false
  ∧ start_session always_200 no_clock client3
      {[ "AVATARIO_REPLICA_ID" := "" ]}
      (Given "") (Given "agent") NOT_GIVEN NOT_GIVEN 0%nat
    = {| result := Raise (AvatarioException "avatar_id must be set");
         world := 0%nat;
         trace := [] |}.
Proof.
  split_and!; [reflexivity | reflexivity |].
  apply (start_session_requires_avatar_id always_200 no_clock client3
           {[ "AVATARIO_REPLICA_ID" := "" ]}
           (Given "") (Given "agent") NOT_GIVEN NOT_GIVEN 0%nat);
    reflexivity.
Defined.

(** C7, counterexample: with neither avatar id nor agent identity the
    error raised is the avatar id one, whose message is not the one
    about the identity. *)
Lemma start_session_checks_avatar_id_first :
  given_str_bool (@NOT_GIVEN string) = false
  ∧ result (start_session always_200 no_clock client3 ∅
              NOT_GIVEN NOT_GIVEN NOT_GIVEN NOT_GIVEN 0%nat)
    = Raise (AvatarioException "avatar_id must be set")
  ∧ "avatar_id must be set" ≠ identity_message.
Proof. split_and!; [reflexivity | reflexivity | discriminate]. Qed.

Lemma start_session_requires_agent_identity_witness :
  given_str_bool (Given "") = false
  ∧ start_session always_200 no_clock client3 ∅
      (Given "face") (Given "") NOT_GIVEN NOT_GIVEN 0%nat
    = {| result := Raise (AvatarioException identity_message);
         world := 0%nat;
         trace := [] |}.
Proof.
  split; [reflexivity |].
  apply (start_session_requires_agent_identity always_200 no_clock client3 ∅
           (Given "face") (Given "") NOT_GIVEN NOT_GIVEN 0%nat).
  reflexivity.
Defined.

Lemma post_catches_and_logs_failures_witness :
  (∀ req served, raises_Exceptions_only (fails_twice_then_200 req served).1)
  ∧ result (_post fails_twice_then_200 no_clock client3 face_payload 0%nat)
    = Raise retries_exhausted
  ∧ logged (trace (_post fails_twice_then_200 no_clock client3
                     face_payload 0%nat))
    = [OtherException "ClientConnectorError";
       OtherException "ClientConnectorError"].
Proof.
  assert (∀ req served,
            raises_Exceptions_only (fails_twice_then_200 req served).1)
    as Hexn.
  { intros req served. unfold fails_twice_then_200.
    destruct (Nat.ltb served 2); cbn; [reflexivity | split; exact I]. }
  split; [exact Hexn |].
  destruct (post_catches_and_logs_failures fails_twice_then_200 no_clock
              client3 face_payload 0%nat Hexn) as (Hres & Hlog & _).
  split; [exact Hres |].
  rewrite Hlog. reflexivity.
Defined.

Lemma post_sends_api_key_on_every_attempt_witness :
  __init__ (Given "secret") retry3 ∅ = Ok client3
  ∧ requests (trace (_post always_500 no_clock client3 face_payload 0%nat))
      !! 2%nat = Some (post_request client3 face_payload)
  ∧ post_headers (post_request client3 face_payload) !! "x-api-key"
    = Some "secret".
Proof.
  assert (requests (trace (_post always_500 no_clock client3 face_payload
                             0%nat)) !! 2%nat
          = Some (post_request client3 face_payload)) as Hreq
    by reflexivity.
  split_and!; [reflexivity | exact Hreq |].
  apply (post_sends_api_key_on_every_attempt always_500 no_clock
           (Given "secret") retry3 ∅ client3 face_payload 0%nat 2%nat
           (post_request client3 face_payload) eq_refl Hreq).
Defined.

Lemma post_without_attempts_witness :
  max_retry (_conn_options client0) ≤ 0
  ∧ _post always_200 no_clock client0 face_payload 0%nat
    = {| result := Raise retries_exhausted; world := 0%nat; trace := [] |}.
Proof.
  assert (max_retry (_conn_options client0) ≤ 0) as Hn by (cbn; lia).
  split; [exact Hn |].
  exact (post_without_attempts always_200 no_clock client0 face_payload
           0%nat Hn).
Defined.

(** ** Further properties of the retry loop *)

Section LoopInvariants.

Context {W : Type}.
Variable session_post : Request → W → (exn + Response) * W.
Variable asyncio_sleep : Q → W → W.

Abbreviation run_post := (_post session_post asyncio_sleep).
Abbreviation iteration self payload i :=
  (try_except_Exception
     (post_try session_post self payload)
     (post_except asyncio_sleep self i)).
Abbreviation loop self payload indices :=
  (for_in indices (λ i, iteration self payload i)).

Lemma length_range n : length (range n) = Z.to_nat n.
Proof. unfold range. by rewrite length_fmap, length_seq. Qed.

Lemma range_pos n :
  0 < n → range n = 0 :: (Z.of_nat <$> seq 1 (Z.to_nat n - 1)).
Proof.
  intros Hn. unfold range.
  replace (Z.to_nat n) with (S (Z.to_nat n - 1)) at 1 by lia.
  reflexivity.
Qed.

Lemma loop_requests_bound self payload indices w :
  (length (requests (trace (loop self payload indices w)))
   ≤ length indices)%nat.
Proof.
  revert w; induction indices as [| i indices IH]; intros w; [done |].
  rewrite loop_cons; cbv zeta.
  pose proof (iteration_requests session_post asyncio_sleep
                self payload i w) as Hreq.
  destruct (result (iteration self payload i w)); cbn [trace].
  - rewrite requests_app, length_app, Hreq. cbn. specialize (IH (world (iteration self payload i w))). lia.
  - rewrite Hreq. cbn. lia.
Qed.

Lemma loop_requests_first self payload i indices w :
  (1 ≤ length (requests (trace (loop self payload (i :: indices) w))))%nat.
Proof.
  rewrite loop_cons; cbv zeta.
  pose proof (iteration_requests session_post asyncio_sleep
                self payload i w) as Hreq.
  destruct (result (iteration self payload i w)); cbn [trace].
  - rewrite requests_app, length_app, Hreq. cbn. lia.
  - by rewrite Hreq.
Qed.

Lemma iteration_ok self payload i w :
  raises_Exceptions_only (session_post (post_request self payload) w).1 →
  result (iteration self payload i w) = Ok tt.
Proof.
  intros Hexn. rewrite iteration_run; cbv zeta.
  destruct (failure_of _) as [e |] eqn:Hf; [| done].
  by rewrite (raises_Exceptions_only_failure _ e Hexn Hf).
Qed.

Lemma loop_requests_exact self payload indices w :
  (∀ req w', raises_Exceptions_only (session_post req w').1) →
  length (requests (trace (loop self payload indices w))) = length indices.
Proof.
  intros Hexn.
  revert w; induction indices as [| i indices IH]; intros w; [done |].
  rewrite loop_cons; cbv zeta.
  rewrite iteration_ok by apply Hexn. cbn [trace].
  rewrite requests_app, length_app, iteration_requests, IH. done.
Qed.

(** X1: [_post] has no normal return: whatever the session answers and
    whatever [max_retry] is, it ends by raising, either the
    retries-exhausted connection error or an exception from outside the
    Exception hierarchy that the [except] clause let through. *)
Theorem post_never_returns self payload w :
  match result (run_post self payload w) with
  | Ok _ => False
  | Raise e => e = retries_exhausted ∨ isinstance_Exception e = false
  end.
Proof.
  destruct (post_always_raises session_post asyncio_sleep self payload w)
    as (e & -> & He).
  exact He.
Qed.

(** X3: every request [_post] issues, first try or retry, is the same
    one: to the path /start_session, with the payload as JSON body and
    the configured timeout. *)
Theorem post_repeats_the_same_request self payload w :
  Forall (λ req, post_url req = "/start_session"
                 ∧ post_json req = payload
                 ∧ post_timeout req = timeout (_conn_options self))
         (requests (trace (run_post self payload w))).
Proof.
  rewrite post_run; cbv zeta; cbn [trace].
  eapply Forall_impl; [apply loop_requests |].
  by intros req ->.
Qed.

(** X4: [_post] never issues more than [max_retry] requests; it issues
    at least one when [max_retry] is positive; and when nothing from
    outside the Exception hierarchy is raised it issues exactly
    [max_retry] of them, whether the attempts succeed or fail. *)
Theorem post_request_count self payload w :
  let n := max_retry (_conn_options self) in
  let sent := length (requests (trace (run_post self payload w))) in
  (sent ≤ Z.to_nat n)%nat
  ∧ (0 < n → (1 ≤ sent)%nat)
  ∧ ((∀ req w', raises_Exceptions_only (session_post req w').1) →
     sent = Z.to_nat n).
Proof.
  intros n sent. unfold sent. rewrite post_run; cbv zeta; cbn [trace].
  fold n. split_and!.
  - rewrite <- (length_range n). apply loop_requests_bound.
  - intros Hn. rewrite (range_pos n Hn). apply loop_requests_first.
  - intros Hexn. rewrite <- (length_range n).
    by apply loop_requests_exact.
Qed.

(** *** When every attempt succeeds *)

Lemma attempt_succeeds_failure answer :
  attempt_succeeds answer → failure_of answer = None.
Proof.
  destruct answer as [e | r]; cbn; [done |].
  by intros [-> [v ->]].
Qed.

Lemma loop_succeeding self payload :
  (∀ req w, attempt_succeeds (session_post req w).1) →
  ∀ indices w,
    let r := loop self payload indices w in
    result r = Ok tt
    ∧ schedule (trace r) = replicate (length indices) Attempt
    ∧ logged (trace r) = [].
Proof.
  intros Hok indices; induction indices as [| i indices IH]; intros w; [done |].
  cbv zeta. rewrite loop_cons; cbv zeta.
  rewrite iteration_run; cbv zeta.
  rewrite (attempt_succeeds_failure _ (Hok (post_request self payload) w)).
  cbn [result world trace].
  destruct (IH (session_post (post_request self payload) w).2)
    as (Hres & Hsched & Hlog).
  split_and!; [done | |].
  - rewrite schedule_app, Hsched. reflexivity.
  - rewrite logged_app, Hlog. reflexivity.
Qed.

(** X5: success does not leave the loop. When every attempt gets an ok
    response with a body that parses, [_post] still issues [max_retry]
    requests, back to back with no sleep and no log record, and then
    raises the retries-exhausted connection error. *)
Theorem post_success_does_not_stop_the_loop self payload w :
  (∀ req w', attempt_succeeds (session_post req w').1) →
  let r := run_post self payload w in
  result r = Raise retries_exhausted
  ∧ schedule (trace r)
    = replicate (Z.to_nat (max_retry (_conn_options self))) Attempt
  ∧ logged (trace r) = [].
Proof.
  intros Hok r.
  destruct (loop_succeeding self payload Hok
              (range (max_retry (_conn_options self))) w)
    as (Hres & Hsched & Hlog).
  unfold r. rewrite post_run; cbv zeta. cbn [result trace].
  by rewrite Hres, Hsched, Hlog, length_range.
Qed.

(** *** What becomes of a failure *)

Lemma handled_at_occurrence_log_of res e tr :
  handled_at_occurrence res (log_of e :: tr) ↔ handled_at_occurrence res tr.
Proof. unfold log_of; by destruct (isinstance_APIConnectionError e). Qed.

Lemma loop_handled self payload indices w :
  handled_at_occurrence (result (loop self payload indices w))
                        (trace (loop self payload indices w)).
Proof.
  revert w; induction indices as [| i indices IH]; intros w; [done |].
  rewrite loop_cons; cbv zeta.
  rewrite iteration_run; cbv zeta.
  destruct (failure_of _) as [e |] eqn:Hf.
  - destruct (isinstance_Exception e) eqn:He; cbn [result world trace].
    + rewrite <- !app_comm_cons. cbn [handled_at_occurrence].
      rewrite Hf, He. split; [by eauto |].
      apply handled_at_occurrence_log_of.
      destruct (_ <? _)%Z; apply IH.
    + cbn [handled_at_occurrence]. by rewrite Hf, He.
  - cbn [result world trace app handled_at_occurrence].
    rewrite Hf. apply IH.
Qed.

Lemma handled_at_occurrence_result res res' tr :
  (∀ e, res = Raise e → res' = Raise e) →
  handled_at_occurrence res tr → handled_at_occurrence res' tr.
Proof.
  intros Hres. induction tr as [| ev tr IH]; [done |].
  destruct ev as [req answer | | |]; cbn; try done.
  destruct (failure_of answer) as [e |]; [| done].
  destruct (isinstance_Exception e).
  - intros [Hlog Hrest]. by split; [| apply IH].
  - intros [-> Hraise]. by split; [| apply Hres].
Qed.

Lemma post_handled self payload w :
  handled_at_occurrence (result (run_post self payload w))
                        (trace (run_post self payload w)).
Proof.
  rewrite post_run; cbv zeta; cbn [result trace].
  eapply handled_at_occurrence_result; [| apply loop_handled].
  by intros e ->.
Qed.

Lemma handled_at_occurrence_lookup res tr n req answer e :
  handled_at_occurrence res tr →
  tr !! n = Some (EvPost req answer) →
  failure_of answer = Some e →
  if isinstance_Exception e
  then tr !! S n = Some (log_of e)
  else length tr = S n ∧ res = Raise e.
Proof.
  revert n; induction tr as [| ev tr IH]; intros n Hh Hn Hf; [done |].
  destruct n as [| n].
  - injection Hn as ->. cbn in Hh. rewrite Hf in Hh.
    destruct (isinstance_Exception e).
    + by destruct Hh as [[rest' ->] _].
    + by destruct Hh as [-> ->].
  - cbn in Hn.
    assert (handled_at_occurrence res tr) as Hh'.
    { destruct ev as [req0 answer0 | | |]; cbn in Hh; try done.
      destruct (failure_of answer0) as [e0 |]; [| done].
      destruct (isinstance_Exception e0); [by destruct Hh |].
      destruct Hh as [-> _]. done. }
    specialize (IH n Hh' Hn Hf).
    destruct (isinstance_Exception e); [done |].
    destruct IH as [Hlen Hres]. by rewrite length_cons, Hlen.
Qed.

(** X6: an exception from outside the Exception hierarchy (a
    cancellation, say) that a request ends with is not caught: [_post]
    ends with that exception at that request, with no log record, no
    sleep and no further request after it. *)
Theorem post_propagates_non_Exception self payload w n req answer e :
  trace (run_post self payload w) !! n = Some (EvPost req answer) →
  failure_of answer = Some e →
  isinstance_Exception e = false →
  result (run_post self payload w) = Raise e
  ∧ length (trace (run_post self payload w)) = S n.
Proof.
  intros Hn Hf He.
  pose proof (handled_at_occurrence_lookup _ _ _ _ _ _
                (post_handled self payload w) Hn Hf) as H.
  rewrite He in H. by destruct H.
Qed.

(** *** Log records *)

Lemma log_of_ok e : log_record_ok (log_of e).
Proof.
  unfold log_of.
  by destruct (isinstance_APIConnectionError e) eqn:He.
Qed.

Lemma loop_log_records self payload indices w :
  Forall log_record_ok (trace (loop self payload indices w)).
Proof.
  revert w; induction indices as [| i indices IH]; intros w;
    [by constructor |].
  rewrite loop_cons; cbv zeta.
  rewrite iteration_run; cbv zeta.
  destruct (failure_of _) as [e |].
  - destruct (isinstance_Exception e); cbn [result world trace].
    + apply Forall_app. split; [| apply IH].
      repeat constructor; [apply log_of_ok |].
      by destruct (_ <? _)%Z; repeat constructor.
    + by repeat constructor.
  - cbn [result world trace].
    apply Forall_app. split; [by repeat constructor | apply IH].
Qed.

(** X7: every log record [_post] writes has the message "failed to call
    avatario api"; it is a warning exactly when the exception caught is
    an [APIConnectionError], and a [logger.exception] record for every
    other exception, status errors included. *)
Theorem post_log_levels self payload w :
  Forall log_record_ok (trace (run_post self payload w))
  ∧ ∀ msg status_code body,
      EvWarning "failed to call avatario api"
                (APIStatusError msg status_code body)
        ∉ trace (run_post self payload w).
Proof.
  assert (Forall log_record_ok (trace (run_post self payload w))) as Hall.
  { rewrite post_run; cbv zeta; cbn [trace]. apply loop_log_records. }
  split; [exact Hall |].
  intros msg status_code body Hin.
  rewrite Forall_forall in Hall. apply Hall in Hin as [_ Hcls].
  discriminate.
Qed.

(** *** Sleeps *)

Lemma waits_schedule_app tr1 tr2 :
  waits (schedule (tr1 ++ tr2))
  = waits (schedule tr1) ++ waits (schedule tr2).
Proof. rewrite schedule_app. apply omap_app. Qed.

Lemma loop_sleeps self payload m k w :
  (k + m)%nat = Z.to_nat (max_retry (_conn_options self)) →
  let tr := trace (loop self payload (Z.of_nat <$> seq k m) w) in
  Forall (λ secs, secs = retry_interval (_conn_options self))
         (waits (schedule tr))
  ∧ (length (waits (schedule tr)) ≤ m - 1)%nat
  ∧ (length (waits (schedule tr)) ≤ length (logged tr))%nat
  ∧ last (schedule tr) = match m with O => None | S _ => Some Attempt end.
Proof.
  revert k w; induction m as [| m IH]; intros k w Hkm.
  { cbn. split_and!; [constructor | lia | lia | done]. }
  cbv zeta. rewrite <- cons_seq, fmap_cons, loop_cons; cbv zeta.
  rewrite iteration_run; cbv zeta.
  destruct (failure_of _) as [e |].
  - destruct (isinstance_Exception e); cbn [result world trace].
    + match goal with
      | |- context [loop self payload _ ?w'] =>
          destruct (IH (S k) w') as (Hall & Hlen & Hlog & Hlast); [lia |]
      end.
      rewrite <- !app_comm_cons, logged_post, logged_log_of.
      change (schedule (EvPost ?r ?a :: ?t)) with (Attempt :: schedule t).
      rewrite schedule_log_of.
      destruct m as [| m].
      * rewrite (proj2 (Z.ltb_ge _ _)) by lia.
        cbn. split_and!; [constructor | lia | lia | done].
      * rewrite (proj2 (Z.ltb_lt _ _)) in * by lia.
        rewrite <- app_comm_cons, app_nil_l.
        change (schedule (EvSleep ?d :: ?t)) with (Wait d :: schedule t).
        change (waits (Attempt :: Wait ?d :: ?t)) with (d :: waits t).
        change (logged (EvSleep ?d :: ?t)) with (logged t).
        cbn [length]. split_and!.
        -- by constructor.
        -- lia.
        -- lia.
        -- by rewrite !last_cons, Hlast.
    + cbn. split_and!; [constructor | lia | lia | done].
  - cbn [result world trace].
    destruct (IH (S k) (session_post (post_request self payload) w).2)
      as (Hall & Hlen & Hlog & Hlast); [lia |].
    rewrite <- app_comm_cons, app_nil_l, logged_post.
    change (schedule (EvPost ?r ?a :: ?t)) with (Attempt :: schedule t).
    change (waits (Attempt :: ?t)) with (waits t).
    split_and!; [done | lia | lia |].
    rewrite last_cons, Hlast. by destruct m.
Qed.

Lemma sleeps_below_log_of bound sent e tr :
  sleeps_below bound sent (log_of e :: tr) ↔ sleeps_below bound sent tr.
Proof. unfold log_of; by destruct (isinstance_APIConnectionError e). Qed.

Lemma loop_sleeps_below self payload m k w :
  (k + m)%nat = Z.to_nat (max_retry (_conn_options self)) →
  sleeps_below (Z.to_nat (max_retry (_conn_options self))) k
    (trace (loop self payload (Z.of_nat <$> seq k m) w)).
Proof.
  revert k w; induction m as [| m IH]; intros k w Hkm; [done |].
  rewrite <- cons_seq, fmap_cons, loop_cons; cbv zeta.
  rewrite iteration_run; cbv zeta.
  destruct (failure_of _) as [e |].
  - destruct (isinstance_Exception e); cbn [result world trace]; [| done].
    rewrite <- !app_comm_cons. cbn [sleeps_below].
    apply sleeps_below_log_of.
    destruct (Z.ltb_spec (Z.of_nat k) (max_retry (_conn_options self) - 1)).
    + cbn [app sleeps_below]. split; [lia | apply IH; lia].
    + apply IH; lia.
  - cbn [result world trace app sleeps_below]. apply IH; lia.
Qed.

Lemma sleeps_below_split bound sent tr1 secs tr2 :
  sleeps_below bound sent (tr1 ++ EvSleep secs :: tr2) →
  (sent + length (requests tr1) < bound)%nat.
Proof.
  revert sent; induction tr1 as [| ev tr1 IH]; intros sent.
  - cbn. intros [Hlt _]. lia.
  - destruct ev as [req answer | | |]; cbn [app sleeps_below].
    + intros H%IH. change (requests (EvPost req answer :: tr1))
        with (req :: requests tr1). cbn [length]. lia.
    + apply IH.
    + apply IH.
    + intros [_ H]. by apply IH.
Qed.

(** X8: [_post] sleeps only for [retry_interval], at most
    [max_retry - 1] times and at most once per logged failure, and never
    once the last request allowed is out: whenever it sleeps, fewer than
    [max_retry] requests have been issued. *)
Theorem post_sleeps self payload w :
  let n := max_retry (_conn_options self) in
  let tr := trace (run_post self payload w) in
  Forall (λ secs, secs = retry_interval (_conn_options self))
         (waits (schedule tr))
  ∧ (length (waits (schedule tr)) ≤ Z.to_nat n - 1)%nat
  ∧ (length (waits (schedule tr)) ≤ length (logged tr))%nat
  ∧ ∀ tr1 secs tr2,
      tr = tr1 ++ EvSleep secs :: tr2 →
      (length (requests tr1) < Z.to_nat n)%nat.
Proof.
  intros n tr. unfold tr. rewrite post_run; cbv zeta; cbn [trace].
  destruct (loop_sleeps self payload (Z.to_nat n) 0%nat w eq_refl)
    as (Hall & Hlen & Hlog & _).
  split_and!; try done.
  intros tr1 secs tr2 Htr.
  pose proof (loop_sleeps_below self payload (Z.to_nat n) 0%nat w eq_refl)
    as Hbelow.
  subst n. unfold range in Htr. rewrite Htr in Hbelow.
  by apply sleeps_below_split in Hbelow.
Qed.

(** *** Status errors and bodies that do not parse *)

(** X9: at every attempt, a response that is not [ok] becomes an
    [APIStatusError] that carries the status code and the body text of
    that response; it is caught and logged with [logger.exception] right
    after the request. *)
Theorem post_status_error_carries_code_and_body
    self payload w n req r body :
  trace (run_post self payload w) !! n = Some (EvPost req (inr r)) →
  ok r = false →
  text r = inr body →
  trace (run_post self payload w) !! S n =
    Some (EvException "failed to call avatario api"
            (APIStatusError "Server returned an error" (status r) body)).
Proof.
  intros Hn Hok Htext.
  assert (failure_of (inr r)
          = Some (APIStatusError "Server returned an error" (status r) body))
    as Hf by (cbn; by rewrite Hok, Htext).
  exact (handled_at_occurrence_lookup _ _ _ _ _ _
           (post_handled self payload w) Hn Hf).
Qed.

(** X10: at every attempt, an [ok] response whose body does not parse as
    JSON counts as a failed attempt: the error of [response.json()] is
    caught and logged right after the request. *)
Theorem post_json_error_is_a_failed_attempt self payload w n req r e :
  trace (run_post self payload w) !! n = Some (EvPost req (inr r)) →
  ok r = true →
  json r = inl e →
  isinstance_Exception e = true →
  trace (run_post self payload w) !! S n = Some (log_of e).
Proof.
  intros Hn Hok Hjson He.
  assert (failure_of (inr r) = Some e) as Hf
    by (cbn; by rewrite Hok, Hjson).
  pose proof (handled_at_occurrence_lookup _ _ _ _ _ _
                (post_handled self payload w) Hn Hf) as H.
  by rewrite He in H.
Qed.

Lemma post_requests_nonempty self payload w :
  requests (trace (run_post self payload w)) ≠ []
  ↔ 0 < max_retry (_conn_options self).
Proof.
  rewrite post_run; cbv zeta; cbn [trace]. split.
  - intros Hne. apply Z.nle_gt. intros Hn. apply Hne.
    unfold range.
    by replace (Z.to_nat (max_retry (_conn_options self))) with 0%nat by lia.
  - intros Hn. rewrite (range_pos _ Hn). intros Hnil.
    pose proof (loop_requests_first self payload 0
                  (Z.of_nat <$> seq 1
                     (Z.to_nat (max_retry (_conn_options self)) - 1)) w)
      as Hone.
    rewrite Hnil in Hone. cbn in Hone. lia.
Qed.

End LoopInvariants.

(** ** Further properties of construction and of [start_session] *)

Section SessionInvariants.

Context {W : Type}.
Variable session_post : Request → W → (exn + Response) * W.
Variable asyncio_sleep : Q → W → W.

Abbreviation run_post := (_post session_post asyncio_sleep).
Abbreviation run_start := (start_session session_post asyncio_sleep).

(** The two checks fail: a validation error, nothing sent. *)
Lemma start_session_invalid
    self environ avatar_id livekit_agent_identity properties extra w :
  opt_str_bool (str_or avatar_id (getenv environ "AVATARIO_REPLICA_ID"))
    && given_str_bool livekit_agent_identity = false →
  ∃ msg,
    run_start self environ avatar_id livekit_agent_identity properties extra w
    = {| result := Raise (AvatarioException msg); world := w; trace := [] |}.
Proof.
  unfold start_session.
  destruct (str_or avatar_id _) as [A |]; cbn; [| by eauto].
  destruct (str_bool A); cbn; [| by eauto].
  destruct livekit_agent_identity as [| G]; cbn; [by eauto |].
  destruct (str_bool G); cbn; [done | by eauto].
Qed.

(** The two checks pass: there are a non-empty avatar id and identity. *)
Lemma start_session_checks_pass avatar_id environ livekit_agent_identity :
  opt_str_bool (str_or avatar_id (getenv environ "AVATARIO_REPLICA_ID"))
    && given_str_bool livekit_agent_identity = true →
  ∃ A G,
    str_or avatar_id (getenv environ "AVATARIO_REPLICA_ID") = Some A
    ∧ str_bool A = true
    ∧ livekit_agent_identity = Given G
    ∧ str_bool G = true.
Proof.
  destruct (str_or avatar_id _) as [A |]; cbn; [| done].
  destruct livekit_agent_identity as [| G]; cbn.
  - by rewrite andb_false_r.
  - intros [HA HG]%andb_true_iff. by exists A, G.
Qed.

(** X2: [start_session] has no normal return either: it raises a
    validation error with nothing sent, or ends like [_post], with the
    retries-exhausted connection error or an exception from outside the
    Exception hierarchy. *)
Theorem start_session_never_returns
    self environ avatar_id livekit_agent_identity properties extra w :
  let r := run_start self environ avatar_id livekit_agent_identity
             properties extra w in
  match result r with
  | Ok _ => False
  | Raise e =>
      (∃ msg, e = AvatarioException msg ∧ trace r = [] ∧ world r = w)
      ∨ e = retries_exhausted
      ∨ isinstance_Exception e = false
  end.
Proof.
  cbv zeta.
  destruct (opt_str_bool
              (str_or avatar_id (getenv environ "AVATARIO_REPLICA_ID"))
            && given_str_bool livekit_agent_identity) eqn:Hchecks.
  - apply start_session_checks_pass in Hchecks as (A & G & HA & HAne & -> & HG).
    rewrite (start_session_valid _ _ _ _ _ A G _ _ _ HA HAne HG).
    match goal with
    | |- context [run_post self ?p w] =>
        destruct (post_always_raises session_post asyncio_sleep self p w)
          as (e & -> & He)
    end.
    by right.
  - eapply start_session_invalid in Hchecks as [msg ->].
    left. by exists msg.
Qed.

(** X16: [start_session] reaches the network exactly when both checks
    pass and [max_retry] is positive. *)
Theorem start_session_sends_iff_valid
    self environ avatar_id livekit_agent_identity properties extra w :
  requests (trace (run_start self environ avatar_id livekit_agent_identity
                     properties extra w)) ≠ []
  ↔ opt_str_bool (str_or avatar_id (getenv environ "AVATARIO_REPLICA_ID"))
      = true
    ∧ given_str_bool livekit_agent_identity = true
    ∧ 0 < max_retry (_conn_options self).
Proof.
  destruct (opt_str_bool
              (str_or avatar_id (getenv environ "AVATARIO_REPLICA_ID"))
            && given_str_bool livekit_agent_identity) eqn:Hchecks.
  - pose proof Hchecks as [Ha Hi]%andb_true_iff.
    apply start_session_checks_pass in Hchecks as (A & G & HA & HAne & -> & HG).
    rewrite (start_session_valid _ _ _ _ _ A G _ _ _ HA HAne HG).
    rewrite post_requests_nonempty. intuition.
  - pose proof Hchecks as Hc.
    eapply start_session_invalid in Hchecks as [msg ->]. cbn [trace].
    apply andb_false_iff in Hc. split; [done |].
    intros (Ha & Hi & _). destruct Hc; congruence.
Qed.

(** X11: an absent or empty [avatar_id] falls back on the environment:
    the call then behaves exactly as if the value of AVATARIO_REPLICA_ID
    had been passed as [avatar_id]. *)
Theorem start_session_avatar_id_fallback
    self environ avatar_id A livekit_agent_identity properties extra w :
  given_str_bool avatar_id = false →
  getenv environ "AVATARIO_REPLICA_ID" = Some A →
  run_start self environ avatar_id livekit_agent_identity properties extra w
  = run_start self environ (Given A) livekit_agent_identity properties
      extra w.
Proof.
  intros Harg Henv. unfold start_session.
  assert (str_or avatar_id (getenv environ "AVATARIO_REPLICA_ID") = Some A)
    as ->.
  { destruct avatar_id as [| s]; cbn in *; [done |]. by rewrite Harg. }
  assert (str_or (Given A) (getenv environ "AVATARIO_REPLICA_ID") = Some A)
    as ->; [| done].
  cbn. rewrite Henv. by destruct (str_bool A).
Qed.

(** X12: the environment matters to [start_session] only through
    AVATARIO_REPLICA_ID, and not at all when [avatar_id] is given and
    non-empty: the explicit argument takes precedence. *)
Theorem start_session_environment_independence
    self environ environ' avatar_id livekit_agent_identity properties
    extra w :
  given_str_bool avatar_id = true
  ∨ getenv environ' "AVATARIO_REPLICA_ID"
    = getenv environ "AVATARIO_REPLICA_ID" →
  run_start self environ' avatar_id livekit_agent_identity properties extra w
  = run_start self environ avatar_id livekit_agent_identity properties
      extra w.
Proof.
  intros Hsame. unfold start_session.
  assert (str_or avatar_id (getenv environ' "AVATARIO_REPLICA_ID")
          = str_or avatar_id (getenv environ "AVATARIO_REPLICA_ID")) as ->;
    [| done].
  destruct Hsame as [Harg | ->]; [| done].
  destruct avatar_id as [| s]; cbn in *; [done |]. by rewrite Harg.
Qed.

(** X13: at construction a non-empty key argument takes precedence over
    the environment, and an empty one is treated as no argument at all:
    the key then comes from AVATARIO_API_KEY. *)
Theorem init_prefers_argument key conn_options environ :
  str_bool key = true →
  __init__ (Given key) conn_options environ
  = Ok {| _api_key := key; _conn_options := conn_options |}
  ∧ __init__ (Given "") conn_options environ
    = __init__ NOT_GIVEN conn_options environ
  ∧ ∀ env_key,
      getenv environ "AVATARIO_API_KEY" = Some env_key →
      __init__ NOT_GIVEN conn_options environ
      = Ok {| _api_key := env_key; _conn_options := conn_options |}.
Proof.
  intros Hkey. unfold __init__. cbn. rewrite Hkey.
  split_and!; [done | done |].
  by intros env_key ->.
Qed.

Lemma dom_base_payload (a g l : value) :
  dom ({[ "avatario_face_id" := a; "agent_id" := g; "livekit" := l ]}
       : gmap string value)
  = base_keys.
Proof.
  rewrite !dom_insert_L, dom_singleton_L.
  unfold base_keys. by rewrite (assoc_L (∪)).
Qed.

(** X14: whatever the extra payload holds, the body of every request has
    the three keys avatario_face_id, agent_id and livekit; its keys are
    those three together with the keys of the extra payload. *)
Theorem start_session_body_keys
    self environ avatar_id A G properties extra w :
  str_or avatar_id (getenv environ "AVATARIO_REPLICA_ID") = Some A →
  str_bool A = true →
  str_bool G = true →
  Forall (λ req,
      dom (post_json req)
      = base_keys ∪ match extra with
                    | Given e => dom e
                    | NOT_GIVEN => ∅
                    end)
    (requests (trace (run_start self environ avatar_id (Given G)
                        properties extra w))).
Proof.
  intros HA HAne HG.
  rewrite (start_session_valid _ _ _ _ _ A G _ _ _ HA HAne HG).
  eapply Forall_impl; [apply post_requests |].
  intros req ->. cbn [post_json post_request].
  destruct extra as [| e].
  - rewrite dom_base_payload. by rewrite (right_id_L ∅ (∪)).
  - unfold dict_update. rewrite dom_union_L, dom_base_payload.
    apply (comm_L (∪)).
Qed.

(** X15: an empty dict is as good as none: passing an empty [properties]
    or an empty [extra_payload] gives the same run as leaving it out. *)
Theorem start_session_empty_dicts
    self environ avatar_id livekit_agent_identity properties extra w :
  let run := start_session session_post asyncio_sleep self environ
               avatar_id livekit_agent_identity in
  run (Given ∅) extra w = run NOT_GIVEN extra w
  ∧ run properties (Given ∅) w = run properties NOT_GIVEN w.
Proof.
  cbv zeta. unfold start_session, dict_update. split; [done |].
  destruct (str_or avatar_id _) as [A |]; [| done].
  destruct (negb (str_bool A)); [done |].
  destruct livekit_agent_identity as [| G]; [done |].
  destruct (negb (str_bool G)); [done |].
  by rewrite (left_id_L ∅ (∪)).
Qed.

(** X17: what is fixed at construction is what goes on the wire: every
    request of [start_session] on a client built by [__init__] carries
    the key resolved at construction in x-api-key and the timeout of the
    connect options the client was built with. *)
Theorem init_then_start_session
    api_key conn_options environ self
    environ' avatar_id livekit_agent_identity properties extra w :
  __init__ api_key conn_options environ = Ok self →
  Forall (λ req,
      post_headers req !! "x-api-key"
      = str_or api_key (getenv environ "AVATARIO_API_KEY")
      ∧ post_timeout req = timeout conn_options
      ∧ post_url req = "/start_session")
    (requests (trace (run_start self environ' avatar_id
                        livekit_agent_identity properties extra w))).
Proof.
  intros [Hkey Hopts]%init_key_resolved.
  destruct (opt_str_bool
              (str_or avatar_id (getenv environ' "AVATARIO_REPLICA_ID"))
            && given_str_bool livekit_agent_identity) eqn:Hchecks.
  - apply start_session_checks_pass in Hchecks as (A & G & HA & HAne & -> & HG).
    rewrite (start_session_valid _ _ _ _ _ A G _ _ _ HA HAne HG).
    eapply Forall_impl; [apply post_requests |].
    intros req ->. cbn [post_headers post_timeout post_url post_request].
    by rewrite Hkey, Hopts.
  - eapply start_session_invalid in Hchecks as [msg ->]. constructor.
Qed.

End SessionInvariants.

(** ** The further properties on concrete runs *)

Lemma post_success_does_not_stop_the_loop_witness :
  (∀ req served, attempt_succeeds (always_200 req served).1)
  ∧ result (_post always_200 no_clock client3 face_payload 0%nat)
    = Raise retries_exhausted
  ∧ schedule (trace (_post always_200 no_clock client3 face_payload 0%nat))
    = [Attempt; Attempt; Attempt].
Proof.
  assert (∀ req served, attempt_succeeds (always_200 req served).1) as Hok
    by (intros req served; cbn; split; [reflexivity | eexists; reflexivity]).
  split; [exact Hok |].
  destruct (post_success_does_not_stop_the_loop always_200 no_clock client3
              face_payload 0%nat Hok) as (Hres & Hsched & _).
  split; [exact Hres | exact Hsched].
Defined.

Lemma post_propagates_non_Exception_witness :
  trace (_post cancelled_on_second no_clock client3 face_payload 0%nat)
    !! 3%nat
  = Some (EvPost (post_request client3 face_payload)
            (inl (BaseExceptionOnly "CancelledError")))
  ∧ result (_post cancelled_on_second no_clock client3 face_payload 0%nat)
    = Raise (BaseExceptionOnly "CancelledError")
  ∧ length (trace (_post cancelled_on_second no_clock client3 face_payload
                     0%nat)) = 4%nat.
Proof.
  assert (trace (_post cancelled_on_second no_clock client3 face_payload
                   0%nat) !! 3%nat
          = Some (EvPost (post_request client3 face_payload)
                    (inl (BaseExceptionOnly "CancelledError")))) as Hn
    by reflexivity.
  split; [exact Hn |].
  exact (post_propagates_non_Exception cancelled_on_second no_clock
           client3 face_payload 0%nat 3%nat _ _ _ Hn eq_refl eq_refl).
Defined.

Lemma post_status_error_carries_code_and_body_witness :
  trace (_post always_500 no_clock client3 face_payload 0%nat) !! 3%nat
  = Some (EvPost (post_request client3 face_payload) (inr http_500))
  ∧ trace (_post always_500 no_clock client3 face_payload 0%nat) !! 4%nat
    = Some (EvException "failed to call avatario api"
              (APIStatusError "Server returned an error" 500
                 "Internal Server Error")).
Proof.
  assert (trace (_post always_500 no_clock client3 face_payload 0%nat)
            !! 3%nat
          = Some (EvPost (post_request client3 face_payload) (inr http_500)))
    as Hn by reflexivity.
  split; [exact Hn |].
  exact (post_status_error_carries_code_and_body always_500 no_clock
           client3 face_payload 0%nat 3%nat _ http_500
           "Internal Server Error" Hn eq_refl eq_refl).
Defined.

Lemma post_json_error_is_a_failed_attempt_witness :
  trace (_post always_not_json no_clock client3 face_payload 0%nat) !! 6%nat
  = Some (EvPost (post_request client3 face_payload)
            (inr http_200_not_json))
  ∧ trace (_post always_not_json no_clock client3 face_payload 0%nat)
      !! 7%nat
    = Some (EvException "failed to call avatario api"
              (OtherException "ContentTypeError")).
Proof.
  assert (trace (_post always_not_json no_clock client3 face_payload 0%nat)
            !! 6%nat
          = Some (EvPost (post_request client3 face_payload)
                    (inr http_200_not_json))) as Hn by reflexivity.
  split; [exact Hn |].
  exact (post_json_error_is_a_failed_attempt always_not_json no_clock
           client3 face_payload 0%nat 6%nat _ http_200_not_json
           (OtherException "ContentTypeError") Hn eq_refl eq_refl eq_refl).
Defined.

Lemma start_session_avatar_id_fallback_witness :
  given_str_bool (Given "") = false
  ∧ getenv {[ "AVATARIO_REPLICA_ID" := "face" ]} "AVATARIO_REPLICA_ID"
    = Some "face"
  ∧ start_session always_500 no_clock client3
      {[ "AVATARIO_REPLICA_ID" := "face" ]}
      (Given "") (Given "agent") NOT_GIVEN NOT_GIVEN 0%nat
    = start_session always_500 no_clock client3
        {[ "AVATARIO_REPLICA_ID" := "face" ]}
        (Given "face") (Given "agent") NOT_GIVEN NOT_GIVEN 0%nat.
Proof.
  split_and!; [reflexivity | reflexivity |].
  apply (start_session_avatar_id_fallback always_500 no_clock client3
           {[ "AVATARIO_REPLICA_ID" := "face" ]} (Given "") "face"
           (Given "agent") NOT_GIVEN NOT_GIVEN 0%nat);
    reflexivity.
Defined.

Lemma start_session_environment_independence_witness :
  given_str_bool (Given "face") = true
  ∧ start_session always_500 no_clock client3
      {[ "AVATARIO_REPLICA_ID" := "other" ]}
      (Given "face") (Given "agent") NOT_GIVEN NOT_GIVEN 0%nat
    = start_session always_500 no_clock client3 ∅
        (Given "face") (Given "agent") NOT_GIVEN NOT_GIVEN 0%nat.
Proof.
  split; [reflexivity |].
  apply (start_session_environment_independence always_500 no_clock client3
           ∅ {[ "AVATARIO_REPLICA_ID" := "other" ]}
           (Given "face") (Given "agent") NOT_GIVEN NOT_GIVEN 0%nat).
  left. reflexivity.
Defined.

Lemma init_prefers_argument_witness :
  str_bool "secret" = true
  ∧ __init__ (Given "secret") retry3 {[ "AVATARIO_API_KEY" := "from-env" ]}
    = Ok client3
  ∧ __init__ (Given "") retry3 {[ "AVATARIO_API_KEY" := "from-env" ]}
    = Ok {| _api_key := "from-env"; _conn_options := retry3 |}.
Proof.
  split; [reflexivity |].
  destruct (init_prefers_argument "secret" retry3
              {[ "AVATARIO_API_KEY" := "from-env" ]} eq_refl)
    as (Harg & Hempty & Henv).
  split; [exact Harg |].
  rewrite Hempty. apply Henv. reflexivity.
Defined.

Lemma start_session_body_keys_witness :
  str_or (Given "face") (getenv ∅ "AVATARIO_REPLICA_ID") = Some "face"
  ∧ Forall (λ req,
        dom (post_json req) = base_keys ∪ {[ "audio_sample_rate" ]})
      (requests (trace (start_session always_500 no_clock client3 ∅
                          (Given "face") (Given "agent") NOT_GIVEN
                          (Given sample_rate_payload) 0%nat))).
Proof.
  split; [reflexivity |].
  pose proof (start_session_body_keys always_500 no_clock client3 ∅
                (Given "face") "face" "agent" NOT_GIVEN
                (Given sample_rate_payload) 0%nat
                eq_refl eq_refl eq_refl) as Hkeys.
  unfold sample_rate_payload in Hkeys at 1.
  rewrite dom_singleton_L in Hkeys. exact Hkeys.
Defined.

Lemma init_then_start_session_witness :
  __init__ NOT_GIVEN retry3 {[ "AVATARIO_API_KEY" := "secret" ]} = Ok client3
  ∧ Forall (λ req,
        post_headers req !! "x-api-key" = Some "secret"
        ∧ post_timeout req = 10%Q
        ∧ post_url req = "/start_session")
      (requests (trace (start_session always_500 no_clock client3 ∅
                          (Given "face") (Given "agent") NOT_GIVEN NOT_GIVEN
                          0%nat))).
Proof.
  split; [reflexivity |].
  exact (init_then_start_session always_500 no_clock NOT_GIVEN retry3
           {[ "AVATARIO_API_KEY" := "secret" ]} client3 ∅
           (Given "face") (Given "agent") NOT_GIVEN NOT_GIVEN 0%nat
           eq_refl).
Defined.
